(** * SSCP 2019 teaching notebooks: right-hand sides and widget callbacks

    The notebooks of the summer school define small ODE right-hand sides
    that are handed to [scipy.integrate.odeint], and widget callbacks that
    re-run a simulator.  This development embeds

    - [rhs] of "E2 - Exercises on Physical Chemistry"  (module [E2]),
    - [rhs], the initial data and the run-and-plot cell of
      "E6_solutions" (module [E6]),
    - the reaction term and the callback [runneuron] of the RxD
      diffusion notebook (module [RxD]).

    Numbers.  Python floats are read as real numbers ([R] of the Standard
    Library) and [np.exp] as the real exponential [exp]; rounding, overflow
    and NaN are outside this model.  Every statement below is a statement
    about the arithmetic the notebooks write down.

    Failure.  Tuple unpacking of a sequence of the wrong length raises
    [ValueError], a dictionary access with an absent key raises [KeyError];
    both are kept, in an error monad of results. *)

From Stdlib Require Import Reals Lra List.
From stdpp Require Import gmap strings pretty.

Open Scope R_scope.

(** ** Results of Python calls that may raise *)

Inductive exn : Type :=
| ValueError
| KeyError (key : string).

Inductive result (A : Type) : Type :=
| Ok (a : A)
| Raise (e : exn).

Arguments Ok {A} a.
Arguments Raise {A} e.

#[global] Instance result_ret : MRet result := fun A a => Ok a.

#[global] Instance result_bind : MBind result := fun A B f r =>
  match r with
  | Ok a => f a
  | Raise e => Raise e
  end.

(** [a, b, c = y] *)
Definition unpack3 (y : list R) : result (R * R * R) :=
  match y with
  | [a; b; c] => Ok (a, b, c)
  | _ => Raise ValueError
  end.

(** [a, b, c, d = y] *)
Definition unpack4 (y : list R) : result (R * R * R * R) :=
  match y with
  | [a; b; c; d] => Ok (a, b, c, d)
  | _ => Raise ValueError
  end.

(** [p[key]] on a dictionary with string keys *)
Definition getitem (p : gmap string R) (key : string) : result R :=
  match p !! key with
  | Some v => Ok v
  | None => Raise (KeyError key)
  end.

(** Python's [a < b], as a boolean *)
Definition ltb (a b : R) : bool := if Rlt_dec a b then true else false.


(** ** E2: the law of mass action for 2 H2 + O2 -> 2 H2O *)

Module E2.

(** [def rhs(y, t, k)] *)
Definition rhs (y : list R) (t : R) (k : R) : result (list R) :=
  '(H2, O2, H2O) ← unpack3 y;
  let dH2_dt := -2*k*H2*H2*O2 in
  let dO2_dt := -k*H2*H2*O2 in
  let dH2O_dt := k*H2*H2*O2 in
  mret [dH2_dt; dO2_dt; dH2O_dt].

Definition k : R := 10.

End E2.

(** ** E6: the Hodgkin-Huxley model *)

Module E6.

(** *** The transition rates and currents computed inside [rhs]

    Each local of [rhs] is a definition of its own, under the name the
    source gives it, so that statements can speak about it. *)

Definition alpha_m (V : R) : R := 0.1*(V+40.0)/(1.0-exp(-(V+40.0)/10.0)).
Definition beta_m (V : R) : R := 4.0*exp(-(V+65.0)/18.0).
Definition alpha_h (V : R) : R := 0.07*exp(-(V+65.0)/20.0).
Definition beta_h (V : R) : R := 1.0/(1.0+exp(-(V+35.0)/10.0)).
Definition alpha_n (V : R) : R := 0.01*(V+55.0)/(1.0-exp(-(V+55.0)/10.0)).
Definition beta_n (V : R) : R := 0.125*exp(-(V+65)/80.0).

(** [-I_amp if 2<t<4 else 0.0]; the chained comparison is [2<t and t<4]. *)
Definition I_app (t I_amp : R) : R :=
  if ltb 2 t && ltb t 4 then -I_amp else 0.0.
Definition I_Na (gNa m h V E_Na : R) : R := gNa*m^3*h*(V - E_Na).
Definition I_K (gK n V E_K : R) : R := gK*n^4*(V - E_K).
Definition I_L (gL V E_L : R) : R := gL*(V - E_L).

(** [def rhs(y,t,p)] *)
Definition rhs (y : list R) (t : R) (p : gmap string R) : result (list R) :=
  (* unpack the solution vector *)
  '(m, h, n, V) ← unpack4 y;
  (* unpack the passed parameters *)
  Cm ← getitem p "Cm";
  E_Na ← getitem p "E_Na";
  E_K ← getitem p "E_K";
  E_L ← getitem p "E_L";
  gNa ← getitem p "gNa";
  gK ← getitem p "gK";
  gL ← getitem p "gL";
  I_amp ← getitem p "I_amp";
  (* calculate the transition rates *)
  let alpha_m := alpha_m V in
  let beta_m := beta_m V in
  let alpha_h := alpha_h V in
  let beta_h := beta_h V in
  let alpha_n := alpha_n V in
  let beta_n := beta_n V in
  (* calculate the currents *)
  let I_app := I_app t I_amp in
  let I_Na := I_Na gNa m h V E_Na in
  let I_K := I_K gK n V E_K in
  let I_L := I_L gL V E_L in
  (* calculate the derivatives *)
  let dm_dt := alpha_m*(1-m) - beta_m*(m) in
  let dh_dt := alpha_h*(1-h) - beta_h*(h) in
  let dn_dt := alpha_n*(1-n) - beta_n*(n) in
  let dV_dt := -(I_Na + I_app + I_K)/Cm in
  (* assemble and return dy/dt *)
  mret [dm_dt; dh_dt; dn_dt; dV_dt].

(** The keys [rhs] reads from its parameter dictionary. *)
Definition param_keys : list string :=
  ["Cm"; "E_Na"; "E_K"; "E_L"; "gNa"; "gK"; "gL"; "I_amp"].

Definition has_params (p : gmap string R) : Prop :=
  Forall (fun key => is_Some (p !! key)) param_keys.

(** Initial conditions *)
Definition m0 : R := 0.
Definition h0 : R := 1.
Definition n0 : R := 0.
Definition V0 : R := -80.
Definition y0 : list R := [m0; h0; n0; V0].

(** Parameters: [p = {}] followed by the eight assignments [p[key] = v]. *)
Definition p : gmap string R :=
  <["I_amp" := 100]> (<["gL" := 0.3]> (<["gK" := 40]> (<["gNa" := 120]>
  (<["E_L" := -75]> (<["E_K" := -80]> (<["E_Na" := 50]> (<["Cm" := 1.0]>
  ∅))))))).

(** *** The cell "Run the model"

    The solver and [np.linspace] belong to third-party libraries; the cell
    is embedded over any solver and any grid constructor.  What the cell
    does to the outside (the solver call, the plotting calls) is logged in
    program order. *)




Section RunTheModel.

Variable odeint :
  (list R -> R -> gmap string R -> result (list R)) ->
  list R -> list R -> gmap string R -> list (list R).
Variable linspace : R -> R -> nat -> list R.

(** The time vector *)
Definition time : list R := linspace 0 20 1000.

(** The solver output of the cell. *)
Definition solution : list (list R) := odeint rhs y0 time p.


End RunTheModel.

End E6.

(** ** The Hodgkin-Huxley equations as text

    These definitions follow the text, not the code: the gating and
    membrane equations as the E6 notebook displays them, the six rate
    functions as the specification writes them.  They are what [E6.rhs]
    is compared with. *)

Module HH.

Definition alpha_m (V : R) : R := 0.1*(V+40)/(1 - exp(-(V+40)/10)).
Definition beta_m (V : R) : R := 4*exp(-(V+65)/18).
Definition alpha_h (V : R) : R := 0.07*exp(-(V+65)/20).
Definition beta_h (V : R) : R := 1/(1 + exp(-(V+35)/10)).
Definition alpha_n (V : R) : R := 0.01*(V+55)/(1 - exp(-(V+55)/10)).
Definition beta_n (V : R) : R := 0.125*exp(-(V+65)/80).


(** Cm dV/dt = -(g_Na m^3 h (V - E_Na) + g_K n^4 (V - E_K)
                 + g_L (V - E_L) + I_app) *)
Definition membrane (Cm g_Na g_K g_L E_Na E_K E_L I_app m h n V : R) : R :=
  -(g_Na*m^3*h*(V - E_Na) + g_K*n^4*(V - E_K) + g_L*(V - E_L) + I_app)/Cm.

End HH.

(** ** RxD: bistable reaction and diffusion along a dendrite *)

Module RxD.


(** One plotted line: abscissae, ordinates, format, label. *)
Definition line : Type := list R * list R * string * option string.

(** What one call of [runneuron] draws: the lines of the axes and the
    elapsed wall-clock time printed in the title. *)
Record figure : Type := Figure { lines : list line; elapsed : R }.

(** [cols = ['r','m','b','c','g']] *)
Definition cols : list string := ["r"; "m"; "b"; "c"; "g"].

Section Simulator.

(** The NEURON simulator is a third-party library.  Its state is a type
    [sim]; the operations [runneuron] uses are functions on it. *)
Variable sim : Type.
(** [h.finitialize()], which reads [r_param.initial] *)
Variable finitialize : R -> sim -> sim.
(** [h.continuerun(tstop)] *)
Variable continuerun : R -> sim -> sim.
(** [u.nodes.x] and [dend.L]: the geometry set up once by the
    initialization cell *)
Variable nodes_x : list R.
Variable dend_L : R.
(** [u.nodes.concentration], and [node.concentration = c] for the node of
    index [i] *)
Variable concentration : sim -> list R.
Variable set_concentration : nat -> R -> sim -> sim.

(** What persists between two calls of the callback: the attribute
    [r_param.initial] and the simulator. *)
Record kernel : Type := Kernel { r_param_initial : R; neuron : sim }.

(** [for node in u.nodes: if node.x < fraction_initial: node.concentration = 1] *)
Definition activate (fraction_initial : R) (s : sim) : sim :=
  fold_left
    (fun s '(i, x) =>
       if ltb x fraction_initial then set_concentration i 1 s else s)
    (imap (fun i x => (i, x)) nodes_x) s.

(** [for i in range(1, 5): h.continuerun(i * 25); ax.plot(...)] *)
Definition run_and_plot (xs : list R) (s : sim) (drawn : list line)
  : sim * list line :=
  fold_left
    (fun '(s, drawn) i =>
       let s := continuerun (INR i * 25) s in
       (s, drawn ++ [(xs, concentration s, cols !!! i,
                      Some (pretty (i * 25)%nat +:+ " ms"))]))
    (seq 1 4) (s, drawn).

(** [def runneuron(rate_param, fraction_initial)].  The two readings of
    [time.time()] are inputs.  Creating the axes, the unused copy
    [data_u = array(vec_u)], the axis labels and the legend leave the
    lines and the simulator as they are and are not represented. *)
Definition runneuron (rate_param fraction_initial : R)
    (clock0 clock1 : R) (k : kernel) : kernel * figure :=
  let my_start_time := clock0 in
  let k := {| r_param_initial := rate_param; neuron := neuron k |} in
  let s := finitialize (r_param_initial k) (neuron k) in
  let s := activate fraction_initial s in
  let xs := map (fun x => dend_L * x) nodes_x in
  let drawn := [(xs, concentration s, "r", None)] in
  let '(s, drawn) := run_and_plot xs s drawn in
  ({| r_param_initial := r_param_initial k; neuron := s |},
   {| lines := drawn; elapsed := clock1 - my_start_time |}).

(** The kernel after a history of slider changes, each with the clock
    readings of its run. *)
Definition replay (history : list (R * R * (R * R))) (k : kernel) : kernel :=
  fold_left
    (fun k '(rate_param, fraction_initial, (clock0, clock1)) =>
       fst (runneuron rate_param fraction_initial clock0 clock1 k))
    history k.

End Simulator.

(** *** A small simulator

    An instance of the simulator interface: three nodes, explicit Euler
    steps of the reaction term alone. *)






End RxD.

(** * Properties *)

(** ** Helper lemmas on the error monad and on comparisons *)

Lemma ltb_true a b : ltb a b = true <-> a < b.
Proof. unfold ltb. destruct (Rlt_dec a b); split; intros; done. Qed.

Lemma ltb_false a b : ltb a b = false <-> ~ a < b.
Proof. unfold ltb. destruct (Rlt_dec a b); split; intros; done. Qed.


Lemma unpack4_Ok y a b c d : unpack4 y = Ok (a, b, c, d) <-> y = [a; b; c; d].
Proof.
  split; [|intros ->; reflexivity].
  destruct y as [|x0 [|x1 [|x2 [|x3 [|x4 y]]]]]; simpl; intros H;
    try discriminate H.
  by injection H as -> -> -> ->.
Qed.



Lemma bind_Ok_inv {A B} (r : result A) (f : A -> result B) (b : B) :
  r ≫= f = Ok b -> exists a, r = Ok a /\ f a = Ok b.
Proof. destruct r as [a|e]; simpl; [eauto | discriminate]. Qed.

(** The value a dictionary holds under a key, 0 when the key is absent. *)
Lemma getitem_value (p : gmap string R) key :
  is_Some (p !! key) -> getitem p key = Ok (default 0 (p !! key)).
Proof. intros [v Hv]. unfold getitem. by rewrite Hv. Qed.

Lemma getitem_Ok_inv (p : gmap string R) key v :
  getitem p key = Ok v -> p !! key = Some v.
Proof. unfold getitem. destruct (p !! key); intros H; by inversion H. Qed.

(** ** E2 *)

Lemma E2_rhs_eval H2 O2 H2O t k :
  E2.rhs [H2; O2; H2O] t k
  = Ok [-2*k*H2*H2*O2; -k*H2*H2*O2; k*H2*H2*O2].
Proof. reflexivity. Qed.


(** C2.  For every state [(H2, O2, H2O)], time and rate constant, [rhs]
    returns derivatives with [dH2_dt = -2 dH2O_dt] and
    [dO2_dt = - dH2O_dt]: the derivatives of [H2 + 2 H2O] and of
    [O2 + H2O] along the vector field vanish. *)
Theorem E2_rhs_conserves_mass (H2 O2 H2O t k : R) :
  exists dH2_dt dO2_dt dH2O_dt,
    E2.rhs [H2; O2; H2O] t k = Ok [dH2_dt; dO2_dt; dH2O_dt] /\
    dH2_dt = -2 * dH2O_dt /\
    dO2_dt = - dH2O_dt /\
    dH2_dt + 2 * dH2O_dt = 0 /\
    dO2_dt + dH2O_dt = 0.
Proof.
  eexists _, _, _. split; [apply E2_rhs_eval|].
  repeat split; ring.
Qed.

(** The same along a trajectory: where three functions of time move with
    the derivatives [rhs] returns, [H2 + 2 H2O] and [O2 + H2O] have
    derivative 0. *)
Lemma E2_totals_stationary (H2 O2 H2O : R -> R) (k t : R) dH2 dO2 dH2O :
  E2.rhs [H2 t; O2 t; H2O t] t k = Ok [dH2; dO2; dH2O] ->
  derivable_pt_lim H2 t dH2 ->
  derivable_pt_lim O2 t dO2 ->
  derivable_pt_lim H2O t dH2O ->
  derivable_pt_lim (fun s => H2 s + 2 * H2O s) t 0 /\
  derivable_pt_lim (fun s => O2 s + H2O s) t 0.
Proof.
  rewrite E2_rhs_eval. intros Heq D1 D2 D3. inversion Heq; subst.
  split.
  - replace 0 with (-2*k*H2 t*H2 t*O2 t + 2 * (k*H2 t*H2 t*O2 t)) by ring.
    apply (derivable_pt_lim_plus H2 (fun s => 2 * H2O s)); [done|].
    apply (derivable_pt_lim_scal H2O 2). done.
  - replace 0 with (-k*H2 t*H2 t*O2 t + k*H2 t*H2 t*O2 t) by ring.
    apply (derivable_pt_lim_plus O2 H2O); done.
Qed.

(** ** E6: what [rhs] returns, and when *)

Lemma E6_rhs_eval m h n V t (p : gmap string R) :
  E6.has_params p ->
  E6.rhs [m; h; n; V] t p
  = Ok [E6.alpha_m V * (1 - m) - E6.beta_m V * m;
        E6.alpha_h V * (1 - h) - E6.beta_h V * h;
        E6.alpha_n V * (1 - n) - E6.beta_n V * n;
        -(E6.I_Na (default 0 (p !! "gNa")) m h V (default 0 (p !! "E_Na"))
          + E6.I_app t (default 0 (p !! "I_amp"))
          + E6.I_K (default 0 (p !! "gK")) n V (default 0 (p !! "E_K")))
         / default 0 (p !! "Cm")].
Proof.
  unfold E6.has_params, E6.param_keys. intros Hp.
  repeat (apply Forall_cons in Hp as [? Hp]).
  unfold E6.rhs. simpl.
  repeat (rewrite getitem_value by done; simpl).
  reflexivity.
Qed.

Lemma E6_rhs_Ok_inv y t (p : gmap string R) dy :
  E6.rhs y t p = Ok dy -> length y = 4%nat /\ E6.has_params p.
Proof.
  unfold E6.rhs. intros H.
  apply bind_Ok_inv in H as ([[[m h] n] V] & Hy & H).
  apply unpack4_Ok in Hy. subst y. split; [reflexivity|].
  repeat (apply bind_Ok_inv in H as (? & ?%getitem_Ok_inv & H)).
  unfold E6.has_params, E6.param_keys.
  repeat (constructor; [eauto|]). constructor.
Qed.

Lemma E6_p_has_params : E6.has_params E6.p.
Proof.
  unfold E6.has_params, E6.param_keys, E6.p.
  repeat (constructor; [by eexists|]). constructor.
Qed.

Lemma E6_p_values :
  E6.p !! "Cm" = Some 1.0 /\ E6.p !! "E_Na" = Some 50 /\
  E6.p !! "E_K" = Some (-80) /\ E6.p !! "E_L" = Some (-75) /\
  E6.p !! "gNa" = Some 120 /\ E6.p !! "gK" = Some 40 /\
  E6.p !! "gL" = Some 0.3 /\ E6.p !! "I_amp" = Some 100.
Proof. repeat split; reflexivity. Qed.




Lemma E6_I_app_outside t I_amp : ~ 2 < t < 4 -> E6.I_app t I_amp = 0.
Proof.
  intros Hn. unfold E6.I_app.
  destruct (ltb 2 t) eqn:H2; destruct (ltb t 4) eqn:H4; simpl; try lra.
  apply ltb_true in H2, H4. tauto.
Qed.

(** For every dictionary with the eight parameters, the fourth component
    of [rhs] is the displayed membrane equation plus [I_L / Cm]: the leak
    current is computed and then left out of the sum. *)
Lemma E6_rhs_dV_lacks_leak m h n V t (p : gmap string R)
    Cm E_Na E_K E_L gNa gK gL I_amp :
  p !! "Cm" = Some Cm -> p !! "E_Na" = Some E_Na -> p !! "E_K" = Some E_K ->
  p !! "E_L" = Some E_L -> p !! "gNa" = Some gNa -> p !! "gK" = Some gK ->
  p !! "gL" = Some gL -> p !! "I_amp" = Some I_amp ->
  exists dm_dt dh_dt dn_dt dV_dt,
    E6.rhs [m; h; n; V] t p = Ok [dm_dt; dh_dt; dn_dt; dV_dt] /\
    dV_dt = HH.membrane Cm gNa gK gL E_Na E_K E_L (E6.I_app t I_amp) m h n V
            + E6.I_L gL V E_L / Cm.
Proof.
  intros HCm HENa HEK HEL HgNa HgK HgL HI.
  eexists _, _, _, _. split.
  - apply E6_rhs_eval. unfold E6.has_params, E6.param_keys.
    repeat (constructor; [by eexists|]). constructor.
  - rewrite HCm, HENa, HEK, HgNa, HgK, HI. simpl.
    unfold HH.membrane, E6.I_Na, E6.I_K, E6.I_L, Rdiv. ring.
Qed.

(** C1, at the initial state and parameters of the notebook and [t = 0]:
    [rhs] returns 0 as its fourth component, where the displayed membrane
    equation gives 1.5 (the leak current is -1.5 there). *)
Theorem E6_rhs_dV_at_rest_differs_from_membrane_equation :
  exists dm_dt dh_dt dn_dt dV_dt,
    E6.rhs E6.y0 0 E6.p = Ok [dm_dt; dh_dt; dn_dt; dV_dt] /\
    dV_dt = 0 /\
    HH.membrane 1.0 120 40 0.3 50 (-80) (-75) (E6.I_app 0 100)
      E6.m0 E6.h0 E6.n0 E6.V0 = 1.5 /\
    dV_dt <> HH.membrane 1.0 120 40 0.3 50 (-80) (-75) (E6.I_app 0 100)
      E6.m0 E6.h0 E6.n0 E6.V0.
Proof.
  destruct E6_p_values as (HCm & HENa & HEK & HEL & HgNa & HgK & HgL & HI).
  assert (Hm : HH.membrane 1.0 120 40 0.3 50 (-80) (-75) (E6.I_app 0 100)
      E6.m0 E6.h0 E6.n0 E6.V0 = 1.5).
  { rewrite E6_I_app_outside by lra.
    unfold HH.membrane, E6.m0, E6.h0, E6.n0, E6.V0. lra. }
  eexists _, _, _, _. split; [apply E6_rhs_eval, E6_p_has_params|].
  rewrite HCm, HENa, HEK, HgNa, HgK, HI. simpl.
  rewrite Hm, E6_I_app_outside by lra.
  unfold E6.I_Na, E6.I_K, E6.m0, E6.h0, E6.n0, E6.V0.
  split; [lra|]. split; [done|lra].
Qed.

(** The rates of the code are the rates of the text. *)
Lemma E6_rates_as_displayed V :
  E6.alpha_m V = HH.alpha_m V /\ E6.beta_m V = HH.beta_m V /\
  E6.alpha_h V = HH.alpha_h V /\ E6.beta_h V = HH.beta_h V /\
  E6.alpha_n V = HH.alpha_n V /\ E6.beta_n V = HH.beta_n V.
Proof.
  unfold E6.alpha_m, E6.beta_m, E6.alpha_h, E6.beta_h, E6.alpha_n, E6.beta_n,
    HH.alpha_m, HH.beta_m, HH.alpha_h, HH.beta_h, HH.alpha_n, HH.beta_n.
  replace 40.0 with 40 by lra. replace 65.0 with 65 by lra.
  replace 35.0 with 35 by lra. replace 55.0 with 55 by lra.
  replace 10.0 with 10 by lra. replace 18.0 with 18 by lra.
  replace 20.0 with 20 by lra. replace 80.0 with 80 by lra.
  replace 1.0 with 1 by lra. replace 4.0 with 4 by lra.
  repeat split; reflexivity.
Qed.





(** ** E6: the cell that runs the model *)

Section E6_run.

Variable odeint :
  (list R -> R -> gmap string R -> result (list R)) ->
  list R -> list R -> gmap string R -> list (list R).
Variable linspace : R -> R -> nat -> list R.

Let time := E6.time linspace.
Let y := E6.solution odeint linspace.



End E6_run.

(** ** RxD *)






(** *** The callback [runneuron] *)

Section RxD_callback.

Variable sim : Type.
Variable finitialize : R -> sim -> sim.
Variable continuerun : R -> sim -> sim.
Variable nodes_x : list R.
Variable dend_L : R.
Variable concentration : sim -> list R.
Variable set_concentration : nat -> R -> sim -> sim.

(** What the notebook relies on: [h.finitialize()] resets the simulator,
    so that its state afterwards is a function of the [initial] attributes
    alone, whatever ran before. *)
Hypothesis finitialize_resets :
  forall r s s', finitialize r s = finitialize r s'.

Let runneuron :=
  RxD.runneuron sim finitialize continuerun nodes_x dend_L
    concentration set_concentration.
Let replay :=
  RxD.replay sim finitialize continuerun nodes_x dend_L
    concentration set_concentration.

(** A run is a function of the simulator state that [finitialize] leaves. *)
Lemma RxD_runneuron_unfold rate_param fraction_initial clock0 clock1 k :
  runneuron rate_param fraction_initial clock0 clock1 k
  = let s := RxD.activate sim nodes_x set_concentration fraction_initial
               (finitialize rate_param (RxD.neuron sim k)) in
    let xs := map (fun x => dend_L * x) nodes_x in
    let out := RxD.run_and_plot sim continuerun concentration xs s
                 [(xs, concentration s, "r", None)] in
    ({| RxD.r_param_initial := rate_param; RxD.neuron := out.1 |},
     {| RxD.lines := out.2; RxD.elapsed := clock1 - clock0 |}).
Proof.
  unfold runneuron, RxD.runneuron. cbv zeta.
  change (RxD.neuron sim {| RxD.r_param_initial := rate_param;
                            RxD.neuron := RxD.neuron sim k |})
    with (RxD.neuron sim k).
  change (RxD.r_param_initial sim
            {| RxD.r_param_initial := rate_param;
               RxD.neuron := RxD.neuron sim k |})
    with rate_param.
  by destruct (RxD.run_and_plot sim continuerun concentration _ _ _).
Qed.


(** What a run draws: the profile after initialization, then one profile
    after each of the four stretches of 25 ms. *)
Lemma RxD_runneuron_draws_five rate_param fraction_initial clock0 clock1 k :
  length (RxD.lines (runneuron rate_param fraction_initial clock0 clock1 k).2)
  = 5%nat.
Proof. rewrite RxD_runneuron_unfold. reflexivity. Qed.


End RxD_callback.



(** ** E6: positivity of the rates and invariance of the unit cube *)

Lemma exp_gt_1 x : 0 < x -> 1 < exp x.
Proof. intros Hx. rewrite <- exp_0. by apply exp_increasing. Qed.

Lemma exp_lt_1 x : x < 0 -> exp x < 1.
Proof. intros Hx. rewrite <- exp_0. by apply exp_increasing. Qed.

(** [c x / (1 - exp (- x / 10))] is positive on both sides of its
    removable singularity at [x = 0]. *)
Lemma linoid_pos c x : 0 < c -> x <> 0 -> 0 < c * x / (1 - exp (- x / 10)).
Proof.
  intros Hc Hx. destruct (Rlt_dec 0 x) as [Hpos|Hnpos].
  - assert (exp (- x / 10) < 1) by (apply exp_lt_1; lra).
    apply Rdiv_lt_0_compat; [apply Rmult_lt_0_compat; lra | lra].
  - assert (1 < exp (- x / 10)) by (apply exp_gt_1; lra).
    replace (c * x / (1 - exp (- x / 10)))
      with (c * (- x) / (exp (- x / 10) - 1)) by (field; lra).
    apply Rdiv_lt_0_compat; [apply Rmult_lt_0_compat; lra | lra].
Qed.

Lemma E6_rates_positive V :
  V <> -40 -> V <> -55 ->
  0 < E6.alpha_m V /\ 0 < E6.beta_m V /\
  0 < E6.alpha_h V /\ 0 < E6.beta_h V /\
  0 < E6.alpha_n V /\ 0 < E6.beta_n V.
Proof.
  intros H40 H55.
  destruct (E6_rates_as_displayed V) as (-> & -> & -> & -> & -> & ->).
  unfold HH.alpha_m, HH.beta_m, HH.alpha_h, HH.beta_h, HH.alpha_n, HH.beta_n.
  repeat split.
  - apply linoid_pos; lra.
  - apply Rmult_lt_0_compat; [lra | apply exp_pos].
  - apply Rmult_lt_0_compat; [lra | apply exp_pos].
  - apply Rdiv_lt_0_compat; [lra|].
    pose proof (exp_pos (- (V + 35) / 10)). lra.
  - apply linoid_pos; lra.
  - apply Rmult_lt_0_compat; [lra | apply exp_pos].
Qed.

(** A gate [x' = a (1 - x) - b x] with positive rates that starts at or
    above 0 stays there: were it negative at some [t1], it would be
    negative on a whole interval [(t0, t1]] after a time [t0] with
    [x t0 >= 0], and increasing on it. *)
Lemma gate_stays_nonneg (a b x : R -> R) (T : R) :
  (forall t, 0 <= t <= T -> 0 < a t) ->
  (forall t, 0 <= t <= T -> 0 < b t) ->
  (forall t, 0 <= t <= T ->
     derivable_pt_lim x t (a t * (1 - x t) - b t * x t)) ->
  0 <= x 0 ->
  forall t, 0 <= t <= T -> 0 <= x t.
Proof.
  intros Ha Hb Hd H0 t1 Ht1.
  destruct (Rle_lt_dec 0 (x t1)) as [|Hneg]; [done|]. exfalso.
  set (E := fun s => 0 <= s <= t1 /\ 0 <= x s).
  assert (Hbound : bound E) by (exists t1; intros s [? _]; lra).
  assert (Hex : exists s, E s) by (exists 0; split; lra).
  destruct (completeness E Hbound Hex) as [t0 [Hub Hlub]].
  assert (Ht0 : 0 <= t0) by (apply Hub; split; lra).
  assert (Ht01 : t0 <= t1) by (apply Hlub; intros s [? _]; lra).
  assert (Hx0 : 0 <= x t0).
  { destruct (Rle_lt_dec 0 (x t0)) as [|Hx0]; [done|]. exfalso.
    assert (Hcont : continuity_pt x t0).
    { apply derivable_continuous_pt.
      exists (a t0 * (1 - x t0) - b t0 * x t0). apply Hd. lra. }
    destruct (Hcont (- x t0) ltac:(lra)) as (delta & Hdelta & Hnear).
    assert (Hbelow : is_upper_bound E (t0 - delta)).
    { intros s Hs. pose proof (Hub s Hs) as Hle. destruct Hs as [_ Hxs].
      destruct (Rle_lt_dec s (t0 - delta)) as [|Hgt]; [done|]. exfalso.
      assert (Hst : t0 <> s) by (intros ->; lra).
      specialize (Hnear s). simpl in Hnear. unfold R_dist in Hnear.
      assert (Hclose : Rabs (x s - x t0) < - x t0).
      { apply Hnear. split; [by split|].
        apply Rabs_def1; lra. }
      apply Rabs_def2 in Hclose. lra. }
    apply Hlub in Hbelow. lra. }
  assert (Hlt : t0 < t1).
  { destruct (Req_dec t0 t1) as [Heq|]; [|lra]. rewrite Heq in Hx0. lra. }
  assert (Hafter : forall s, t0 < s <= t1 -> x s < 0).
  { intros s Hs. destruct (Rle_lt_dec 0 (x s)) as [Hxs|]; [|done]. exfalso.
    assert (Es : E s) by (split; lra). apply Hub in Es. lra. }
  destruct (MVT_cor2 x (fun t => a t * (1 - x t) - b t * x t) t0 t1 Hlt)
    as (c & Hmvt & Hc).
  { intros s Hs. apply Hd. lra. }
  assert (Hxc : x c < 0) by (apply Hafter; lra).
  assert (Hac : 0 < a c) by (apply Ha; lra).
  assert (Hbc : 0 < b c) by (apply Hb; lra).
  assert (Hslope : 0 < a c * (1 - x c) - b c * x c).
  { assert (0 < a c * (1 - x c)) by (apply Rmult_lt_0_compat; lra).
    assert (0 < b c * (- x c)) by (apply Rmult_lt_0_compat; lra).
    lra. }
  assert (0 < (a c * (1 - x c) - b c * x c) * (t1 - t0))
    by (apply Rmult_lt_0_compat; lra).
  lra.
Qed.

(** The complement [1 - x] of a gate is a gate with the rates exchanged. *)
Lemma gate_stays_below_one (a b x : R -> R) (T : R) :
  (forall t, 0 <= t <= T -> 0 < a t) ->
  (forall t, 0 <= t <= T -> 0 < b t) ->
  (forall t, 0 <= t <= T ->
     derivable_pt_lim x t (a t * (1 - x t) - b t * x t)) ->
  x 0 <= 1 ->
  forall t, 0 <= t <= T -> x t <= 1.
Proof.
  intros Ha Hb Hd H0 t Ht.
  enough (0 <= (fun s => 1 - x s) t) by lra.
  apply (gate_stays_nonneg b a (fun s => 1 - x s) T); try done; [|lra].
  intros s Hs.
  replace (b s * (1 - (1 - x s)) - a s * (1 - x s))
    with (0 - (a s * (1 - x s) - b s * x s)) by ring.
  apply (derivable_pt_lim_minus (fct_cte 1) x).
  - apply derivable_pt_lim_const.
  - by apply Hd.
Qed.

Lemma gate_stays_in_unit_interval (a b x : R -> R) (T : R) :
  (forall t, 0 <= t <= T -> 0 < a t) ->
  (forall t, 0 <= t <= T -> 0 < b t) ->
  (forall t, 0 <= t <= T ->
     derivable_pt_lim x t (a t * (1 - x t) - b t * x t)) ->
  0 <= x 0 <= 1 ->
  forall t, 0 <= t <= T -> 0 <= x t <= 1.
Proof.
  intros Ha Hb Hd [H0 H1] t Ht. split.
  - by apply (gate_stays_nonneg a b x T).
  - by apply (gate_stays_below_one a b x T).
Qed.

(** C5.  Away from [V = -40] and [V = -55] the six transition rates are
    positive; hence each gating derivative [rhs] returns is nonnegative
    where its gate is 0 and nonpositive where its gate is 1; hence gates
    that move with the derivatives [rhs] returns, along any course of the
    membrane potential that avoids -40 and -55, stay in the unit cube once
    they are in it. *)
Theorem E6_gating_unit_cube_invariant :
  (forall V, V <> -40 -> V <> -55 ->
     0 < E6.alpha_m V /\ 0 < E6.beta_m V /\
     0 < E6.alpha_h V /\ 0 < E6.beta_h V /\
     0 < E6.alpha_n V /\ 0 < E6.beta_n V) /\
  (forall m h n V t (p : gmap string R) dm_dt dh_dt dn_dt dV_dt,
     V <> -40 -> V <> -55 ->
     E6.rhs [m; h; n; V] t p = Ok [dm_dt; dh_dt; dn_dt; dV_dt] ->
     (m = 0 -> 0 <= dm_dt) /\ (m = 1 -> dm_dt <= 0) /\
     (h = 0 -> 0 <= dh_dt) /\ (h = 1 -> dh_dt <= 0) /\
     (n = 0 -> 0 <= dn_dt) /\ (n = 1 -> dn_dt <= 0)) /\
  (forall (p : gmap string R) (T : R) (m h n V : R -> R),
     (forall t, 0 <= t <= T -> V t <> -40 /\ V t <> -55) ->
     (forall t, 0 <= t <= T ->
        exists dm_dt dh_dt dn_dt dV_dt,
          E6.rhs [m t; h t; n t; V t] t p = Ok [dm_dt; dh_dt; dn_dt; dV_dt] /\
          derivable_pt_lim m t dm_dt /\
          derivable_pt_lim h t dh_dt /\
          derivable_pt_lim n t dn_dt) ->
     0 <= m 0 <= 1 -> 0 <= h 0 <= 1 -> 0 <= n 0 <= 1 ->
     forall t, 0 <= t <= T ->
       0 <= m t <= 1 /\ 0 <= h t <= 1 /\ 0 <= n t <= 1).
Proof.
  split; [apply E6_rates_positive|]. split.
  - intros m h n V t p dm_dt dh_dt dn_dt dV_dt H40 H55 Hrhs.
    destruct (E6_rhs_Ok_inv _ _ _ _ Hrhs) as [_ Hp].
    rewrite E6_rhs_eval in Hrhs by done.
    injection Hrhs as <- <- <- _.
    destruct (E6_rates_positive V H40 H55) as (? & ? & ? & ? & ? & ?).
    repeat split; intros ->; lra.
  - intros p T m h n V HV Hode Hm0 Hh0 Hn0 t Ht.
    assert (Hgate : forall s, 0 <= s <= T ->
      derivable_pt_lim m s
        (E6.alpha_m (V s) * (1 - m s) - E6.beta_m (V s) * m s) /\
      derivable_pt_lim h s
        (E6.alpha_h (V s) * (1 - h s) - E6.beta_h (V s) * h s) /\
      derivable_pt_lim n s
        (E6.alpha_n (V s) * (1 - n s) - E6.beta_n (V s) * n s)).
    { intros s Hs.
      destruct (Hode s Hs) as (dm & dh & dn & dV & Hrhs & Dm & Dh & Dn).
      destruct (E6_rhs_Ok_inv _ _ _ _ Hrhs) as [_ Hp].
      rewrite E6_rhs_eval in Hrhs by done.
      by injection Hrhs as <- <- <- _. }
    assert (Hrates : forall s, 0 <= s <= T ->
      0 < E6.alpha_m (V s) /\ 0 < E6.beta_m (V s) /\
      0 < E6.alpha_h (V s) /\ 0 < E6.beta_h (V s) /\
      0 < E6.alpha_n (V s) /\ 0 < E6.beta_n (V s)).
    { intros s Hs. destruct (HV s Hs). by apply E6_rates_positive. }
    split; [|split].
    + apply (gate_stays_in_unit_interval
               (fun s => E6.alpha_m (V s)) (fun s => E6.beta_m (V s)) m T);
        try done; intros s Hs; try apply Hrates; try apply Hgate; done.
    + apply (gate_stays_in_unit_interval
               (fun s => E6.alpha_h (V s)) (fun s => E6.beta_h (V s)) h T);
        try done; intros s Hs; try apply Hrates; try apply Hgate; done.
    + apply (gate_stays_in_unit_interval
               (fun s => E6.alpha_n (V s)) (fun s => E6.beta_n (V s)) n T);
        try done; intros s Hs; try apply Hrates; try apply Hgate; done.
Qed.

(** Gates resting at their steady states at [V = 0], under the
    parameters of the notebook, are such a course. *)
Lemma E6_gating_unit_cube_invariant_witness :
  0 < E6.alpha_m 0 /\
  (forall dm_dt dh_dt dn_dt dV_dt,
     E6.rhs [0; 1; 0; 0] 0 E6.p = Ok [dm_dt; dh_dt; dn_dt; dV_dt] ->
     0 <= dm_dt /\ dh_dt <= 0) /\
  0 <= E6.alpha_m 0 / (E6.alpha_m 0 + E6.beta_m 0) <= 1.
Proof.
  destruct E6_gating_unit_cube_invariant as (Hrates & Hsign & Hcube).
  destruct (Hrates 0 ltac:(lra) ltac:(lra))
    as (Ham & Hbm & Hah & Hbh & Han & Hbn).
  split; [done|]. split.
  { intros dm_dt dh_dt dn_dt dV_dt Hrhs.
    destruct (Hsign 0 1 0 0 0 E6.p dm_dt dh_dt dn_dt dV_dt
                ltac:(lra) ltac:(lra) Hrhs) as (? & _ & _ & ? & _).
    split; auto. }
  set (steady := fun a b : R => a / (a + b)).
  assert (Hsteady : forall a b, 0 < a -> 0 < b ->
            a * (1 - steady a b) - b * steady a b = 0)
    by (intros a b Ha Hb; unfold steady; field; lra).
  assert (Hin : forall a b, 0 < a -> 0 < b -> 0 <= steady a b <= 1).
  { intros a b Ha Hb. unfold steady. split.
    - apply Rlt_le, Rdiv_lt_0_compat; lra.
    - apply Rlt_le. apply (Rmult_lt_reg_r (a + b)); [lra|].
      replace (a / (a + b) * (a + b)) with a by (field; lra). lra. }
  assert (Hode : forall t, 0 <= t <= 1 ->
    exists dm_dt dh_dt dn_dt dV_dt,
      E6.rhs [steady (E6.alpha_m 0) (E6.beta_m 0);
              steady (E6.alpha_h 0) (E6.beta_h 0);
              steady (E6.alpha_n 0) (E6.beta_n 0); 0] t E6.p
      = Ok [dm_dt; dh_dt; dn_dt; dV_dt] /\
      derivable_pt_lim (fun _ => steady (E6.alpha_m 0) (E6.beta_m 0)) t dm_dt /\
      derivable_pt_lim (fun _ => steady (E6.alpha_h 0) (E6.beta_h 0)) t dh_dt /\
      derivable_pt_lim (fun _ => steady (E6.alpha_n 0) (E6.beta_n 0)) t dn_dt).
  { intros t Ht. eexists _, _, _, _.
    split; [apply E6_rhs_eval, E6_p_has_params|].
    rewrite !Hsteady by done.
    repeat split; apply (derivable_pt_lim_const _ t). }
  apply (Hcube E6.p 1
           (fun _ => steady (E6.alpha_m 0) (E6.beta_m 0))
           (fun _ => steady (E6.alpha_h 0) (E6.beta_h 0))
           (fun _ => steady (E6.alpha_n 0) (E6.beta_n 0))
           (fun _ => 0)
           (fun t _ => conj (not_eq_sym (Rlt_not_eq (-40) 0 ltac:(lra)))
                            (not_eq_sym (Rlt_not_eq (-55) 0 ltac:(lra))))
           Hode (Hin _ _ Ham Hbm) (Hin _ _ Hah Hbh) (Hin _ _ Han Hbn)
           1 ltac:(lra)).
Defined.
